(** * code-examples-code-conventions.cpp: a shallow embedding

    The translation unit is a catalogue of ten C++ style rules.  Every
    function of the file is embedded as a computation over an explicit
    [World]: the bytes inserted into [std::cout] and [std::cerr], the store
    of live objects, the state of the global [std::mutex m] and a ghost
    trace of the functions entered.  Control flow that leaves a statement
    sequence early ([return], a propagating exception, undefined behaviour)
    is an [outcome]. *)

From Stdlib Require Import ZArith Ascii String List.
From stdpp Require Import base option gmap strings.

Open Scope string_scope.

(** ** Objects, exceptions, function names *)

(** An address of an object with dynamic or automatic storage is a [nat];
    a pointer value is an [option nat], [None] being the null pointer. *)

(** The object kinds the file creates or receives by reference:
    [class User {}], [class Derived : public Base], a [std::string] and a
    [std::vector<int>]. *)
Inductive object : Type :=
| OUser
| ODerived
| OString (s : string)
| OVector (v : list Z).

(** What a [throw] can carry.  [catch (const std::exception&)] matches the
    first constructor only. *)
Inductive exn : Type :=
| StdException (what : string)
| ForeignException.

(** The functions of the translation unit, for the ghost call trace. *)
Inductive fn : Type :=
| F_error | F_func | F_do_other | F_calculate
| F_func_overload_int | F_func_overload_charp
| F_Rule2_example
| F_Rule3_unsafe | F_Rule3_safe
| F_Rule4_print
| F_Rule5_process_data | F_Rule5_bad_lock | F_Rule5_good_lock
| F_Rule6_old_style | F_Rule6_new_style
| F_Rule7_process
| F_Rule8_example
| F_Rule9_example
| F_Rule10_print
| F_main.

(** ** The world *)

Record World : Type := mkWorld {
  out : string;              (* bytes inserted into std::cout, oldest first *)
  err : string;              (* bytes inserted into std::cerr *)
  heap : gmap nat object;    (* live objects *)
  m_locked : bool;           (* Rule5_RAII::m is owned *)
  trace : list fn            (* functions entered, oldest first *)
}.

Definition with_out (s : string) (w : World) : World :=
  mkWorld s (err w) (heap w) (m_locked w) (trace w).
Definition with_err (s : string) (w : World) : World :=
  mkWorld (out w) s (heap w) (m_locked w) (trace w).
Definition with_heap (h : gmap nat object) (w : World) : World :=
  mkWorld (out w) (err w) h (m_locked w) (trace w).
Definition with_m_locked (b : bool) (w : World) : World :=
  mkWorld (out w) (err w) (heap w) b (trace w).
Definition with_trace (t : list fn) (w : World) : World :=
  mkWorld (out w) (err w) (heap w) (m_locked w) t.

(** The world at process start: nothing written, no object alive, [m]
    default-constructed (not owned). *)
Definition initial_world : World := mkWorld "" "" ∅ false [].

(** ** Outcomes and the computation monad *)

(** How a statement sequence inside a function returning [R] ends. *)
Inductive outcome (R A : Type) : Type :=
| Val (a : A)        (* ran to its end with value [a] *)
| Ret (r : R)        (* executed [return r;] *)
| Exc (e : exn)      (* an exception is propagating *)
| Undef.             (* undefined behaviour *)
Arguments Val {R A} a.
Arguments Ret {R A} r.
Arguments Exc {R A} e.
Arguments Undef {R A}.

Definition M (R A : Type) : Type := World -> outcome R A * World.

Definition ret {R A} (a : A) : M R A := fun w => (Val a, w).

Definition bind {R A B} (c : M R A) (k : A -> M R B) : M R B :=
  fun w =>
    match c w with
    | (Val a, w1) => k a w1
    | (Ret r, w1) => (Ret r, w1)
    | (Exc e, w1) => (Exc e, w1)
    | (Undef, w1) => (Undef, w1)
    end.

Declare Scope cpp_scope.
Delimit Scope cpp_scope with cpp.
Notation "x <- c ;; k" := (bind c (fun x => k))
  (at level 100, c at next level, right associativity) : cpp_scope.
Notation "c ;; k" := (bind c (fun _ => k))
  (at level 100, right associativity) : cpp_scope.
Open Scope cpp_scope.

(** [return r;] *)
Definition return_ {R A} (r : R) : M R A := fun w => (Ret r, w).

(** [throw e;] *)
Definition throw {R A} (e : exn) : M R A := fun w => (Exc e, w).

Definition undefined {R A} : M R A := fun w => (Undef, w).

Definition log {R} (f : fn) : M R unit :=
  fun w => (Val tt, with_trace (trace w ++ [f]) w).

(** Calling a function whose return type is [void]: the body ends either by
    reaching its closing brace or by [return;]. *)
Definition call_void {R} (f : fn) (body : M unit unit) : M R unit :=
  fun w =>
    match (log f ;; body) w with
    | (Val _, w1) => (Val tt, w1)
    | (Ret _, w1) => (Val tt, w1)
    | (Exc e, w1) => (Exc e, w1)
    | (Undef, w1) => (Undef, w1)
    end.

(** Calling a function returning a value: flowing off the end without a
    [return] is undefined behaviour. *)
Definition call_fn {R A} (f : fn) (body : M A unit) : M R A :=
  fun w =>
    match (log f ;; body) w with
    | (Val _, w1) => (Undef, w1)
    | (Ret a, w1) => (Val a, w1)
    | (Exc e, w1) => (Exc e, w1)
    | (Undef, w1) => (Undef, w1)
    end.

(** [main] is the one value-returning function whose closing brace means
    [return 0;]. *)
Definition call_main {R} (body : M Z unit) : M R Z :=
  fun w =>
    match (log F_main ;; body) w with
    | (Val _, w1) => (Val 0%Z, w1)
    | (Ret a, w1) => (Val a, w1)
    | (Exc e, w1) => (Exc e, w1)
    | (Undef, w1) => (Undef, w1)
    end.

(** [try { body } catch (const std::exception& e) { handler e }]: only an
    exception derived from [std::exception] enters the handler. *)
Definition try_catch {R A} (body : M R A) (handler : string -> M R A) : M R A :=
  fun w =>
    match body w with
    | (Exc (StdException msg), w1) => handler msg w1
    | rw => rw
    end.

(** A local object with a destructor: [ctor] runs at the declaration,
    [rest] is the remainder of the enclosing block and [dtor] runs when the
    block is left, whether by its end, by [return] or by an exception.  A
    destructor that does not complete normally ends the program. *)
Definition scoped {R T A} (ctor : M R T) (dtor : T -> M R unit)
    (rest : T -> M R A) : M R A :=
  fun w =>
    match ctor w with
    | (Val t, w1) =>
        match rest t w1 with
        | (Undef, w2) => (Undef, w2)
        | (r, w2) =>
            match dtor t w2 with
            | (Val _, w3) => (r, w3)
            | (_, w3) => (Undef, w3)
            end
        end
    | (Ret r, w1) => (Ret r, w1)
    | (Exc e, w1) => (Exc e, w1)
    | (Undef, w1) => (Undef, w1)
    end.

(** ** Library primitives *)

Definition newline : string := String (ascii_of_nat 10) EmptyString.

(** [std::cout << s] *)
Definition cout {R} (s : string) : M R unit :=
  fun w => (Val tt, with_out (out w ++ s) w).

(** [std::cerr << s] *)
Definition cerr {R} (s : string) : M R unit :=
  fun w => (Val tt, with_err (err w ++ s) w).

(** [std::cout << std::endl]: a newline, then a flush, which does not change
    the bytes inserted. *)
Definition endl {R} : M R unit := cout newline.

(** [new T()] / the definition of a local [T]: a fresh address holding [o]. *)
Definition alloc {R} (o : object) : M R nat :=
  fun w =>
    let l := fresh (dom (heap w)) in
    (Val l, with_heap (<[l := o]> (heap w)) w).

(** End of the lifetime of the object at [l]; ending it twice is undefined. *)
Definition dealloc {R} (l : nat) : M R unit :=
  fun w =>
    match heap w !! l with
    | Some _ => (Val tt, with_heap (delete l (heap w)) w)
    | None => (Undef, w)
    end.

(** [delete p]: nothing for the null pointer. *)
Definition delete_ {R} (p : option nat) : M R unit :=
  match p with
  | Some l => dealloc l
  | None => ret tt
  end.

(** [m.lock()]: locking a [std::mutex] the calling thread already owns is
    undefined behaviour; the program is single-threaded. *)
Definition mutex_lock {R} : M R unit :=
  fun w => if m_locked w then (Undef, w) else (Val tt, with_m_locked true w).

(** [m.unlock()]: undefined unless the calling thread owns [m]. *)
Definition mutex_unlock {R} : M R unit :=
  fun w => if m_locked w then (Val tt, with_m_locked false w) else (Undef, w).

(** Reading the [std::string] a reference designates; a dangling or
    ill-typed reference is undefined behaviour. *)
Definition read_string {R} (l : nat) : M R string :=
  fun w =>
    match heap w !! l with
    | Some (OString s) => (Val s, w)
    | _ => (Undef, w)
    end.

(** [static_cast<Base*>] applied to a [Base*]: the pointer itself. *)
Definition static_cast_Base (p : option nat) : option nat := p.

(** ** Helper definitions (source lines 10-19) *)

(** [bool error() { return false; }] *)
Definition error {R} : M R bool := call_fn F_error (return_ false).

(** [void func() {}] *)
Definition func {R} : M R unit := call_void F_func (ret tt).

(** [void do_other() {}] *)
Definition do_other {R} : M R unit := call_void F_do_other (ret tt).

(** [int calculate() { return 10; }] *)
Definition calculate {R} : M R Z := call_fn F_calculate (return_ 10%Z).

(** The two lines [func_overload] can write; each ends in a newline. *)
Definition called_int : string := "Called func(int)" ++ newline.
Definition called_charp : string := "Called func(char*)" ++ newline.

(** The overload of [func_overload] whose parameter is an [int]. *)
Definition func_overload_int {R} (_ : Z) : M R unit :=
  call_void F_func_overload_int (cout called_int).

(** The overload of [func_overload] whose parameter is a pointer to [char]. *)
Definition func_overload_charp {R} (_ : option nat) : M R unit :=
  call_void F_func_overload_charp (cout called_charp).

(** *** Overload resolution for [func_overload]

    The argument expressions that can appear at a call, the two parameter
    types of the overload set, and the implicit conversions between them:
    an [int] binds to [int], a [char*] to [char*], and [nullptr]
    (of type [std::nullptr_t]) converts to the null [char*] but to no
    integer type. *)
Inductive argument : Type :=
| A_int (n : Z)
| A_charp (p : option nat)
| A_nullptr.

Inductive overload : Type := Ov_int | Ov_charp.

Definition converts (a : argument) (o : overload) : bool :=
  match a, o with
  | A_int _, Ov_int => true
  | A_charp _, Ov_charp => true
  | A_nullptr, Ov_charp => true
  | _, _ => false
  end.

(** The viable candidates, in declaration order. *)
Definition viable (a : argument) : list overload :=
  filter (fun o => converts a o = true) [Ov_int; Ov_charp].

(** The call [func_overload(a)]: the single viable candidate is entered with
    the converted argument; a call with no or several candidates is
    ill-formed and is not part of any program. *)
Definition func_overload {R} (a : argument) : M R unit :=
  match viable a, a with
  | [Ov_int], A_int n => func_overload_int n
  | [Ov_charp], A_charp p => func_overload_charp p
  | [Ov_charp], A_nullptr => func_overload_charp None
  | _, _ => undefined
  end.

(** ** Rule 2: code structure *)
Module Rule2_Structure.

Definition example {R} (x : bool) : M R unit :=
  call_void F_Rule2_example
    (if x then
       (func ;;
        return_ tt)
     else
       do_other).

End Rule2_Structure.

(** ** Rule 3: memory management *)
Module Rule3_Memory.

Section WithError.
(** The predicate the two functions consult; the file's own is [error]. *)
Variable error_ : M unit bool.

(** [User* u = new User(); if (error()) return; delete u;] *)
Definition unsafe_with {R} : M R unit :=
  call_void F_Rule3_unsafe
    (u <- alloc OUser ;;
     b <- error_ ;;
     (if b : bool then return_ tt else ret tt) ;;
     delete_ (Some u)).

(** [auto u = std::make_unique<User>(); if (error()) return;] *)
Definition safe_with {R} : M R unit :=
  call_void F_Rule3_safe
    (scoped (alloc OUser) (fun u => delete_ (Some u))
       (fun _ =>
          b <- error_ ;;
          if b : bool then return_ tt else ret tt)).
End WithError.

Definition unsafe {R} : M R unit := unsafe_with error.
Definition safe {R} : M R unit := safe_with error.

End Rule3_Memory.

(** ** Rule 4: const correctness *)
Module Rule4_Const.

(** [void print(const std::string& str) { std::cout << str; }] *)
Definition print {R} (str : nat) : M R unit :=
  call_void F_Rule4_print
    (s <- read_string str ;;
     cout s).

End Rule4_Const.

(** ** Rule 5: RAII *)
Module Rule5_RAII.

(** [void process_data() {}] *)
Definition process_data {R} : M R unit :=
  call_void F_Rule5_process_data (ret tt).

Section WithWork.
(** The work done while [m] is held; the file's own is [process_data]. *)
Variable work : M unit unit.

(** [m.lock(); process_data(); m.unlock();] *)
Definition bad_lock_with {R} : M R unit :=
  call_void F_Rule5_bad_lock
    (mutex_lock ;;
     work ;;
     mutex_unlock).

(** [std::lock_guard<std::mutex> lk(m); process_data();] *)
Definition good_lock_with {R} : M R unit :=
  call_void F_Rule5_good_lock
    (scoped mutex_lock (fun _ => mutex_unlock)
       (fun _ => work)).
End WithWork.

Definition bad_lock {R} : M R unit := bad_lock_with process_data.
Definition good_lock {R} : M R unit := good_lock_with process_data.

End Rule5_RAII.

(** ** Rule 6: error handling *)
Module Rule6_ErrorHandling.

(** The body is a comment. *)
Definition old_style {R} : M R unit :=
  call_void F_Rule6_old_style (ret tt).

(** [std::cerr << "Error: " << e.what();] *)
Definition handler {R} (what : string) : M R unit :=
  cerr "Error: " ;;
  cerr what.

Section WithComputation.
(** The computation attempted; the file's own is [calculate]. *)
Variable calculate_ : M unit Z.

(** [try { int res = calculate(); } catch (const std::exception& e) {...}] *)
Definition new_style_with {R} : M R unit :=
  call_void F_Rule6_new_style
    (try_catch
       (res <- calculate_ ;;
        ret tt)
       handler).
End WithComputation.

Definition new_style {R} : M R unit := new_style_with calculate.

End Rule6_ErrorHandling.

(** ** Rule 7: pass by const reference *)
Module Rule7_Performance.

(** [void process(const std::vector<int>& data) {}] *)
Definition process {R} (data : nat) : M R unit :=
  call_void F_Rule7_process (ret tt).

End Rule7_Performance.

(** ** Rule 8: casting *)
Module Rule8_Casting.

(** [Derived derived_obj; Base* derived_ptr = &derived_obj;
     Base* b = static_cast<Base*>(derived_ptr);] *)
Definition example {R} : M R unit :=
  call_void F_Rule8_example
    (scoped (alloc ODerived) dealloc
       (fun derived_obj =>
          let derived_ptr := Some derived_obj in
          let b := static_cast_Base derived_ptr in
          ret tt)).

End Rule8_Casting.

(** ** Rule 9: nullptr *)
Module Rule9_Nullptr.

(** [func_overload(nullptr);] *)
Definition example {R} : M R unit :=
  call_void F_Rule9_example (func_overload A_nullptr).

End Rule9_Nullptr.

(** ** Rule 10: namespaces *)
Module Rule10_Namespaces.

(** [std::cout << "Hello World";] *)
Definition print {R} : M R unit :=
  call_void F_Rule10_print (cout "Hello World").

End Rule10_Namespaces.

(** ** The entry point *)

Definition banner : string := "C++ Code Examples successfully compiled.".

(** [std::cout << banner << std::endl; return 0;] *)
Definition main : M Empty_set Z :=
  call_main
    (cout banner ;;
     endl ;;
     return_ 0%Z).

(** ** Auxiliary definitions for the statements *)

(** An implementation of the predicate [error] whose answer is [b]. *)
Definition error_returning {R} (b : bool) : M R bool :=
  call_fn F_error (return_ b).

(** Number of newline bytes in a text. *)
Fixpoint count_newlines (s : string) : nat :=
  match s with
  | EmptyString => 0
  | String c s' =>
      (if Ascii.eqb c (ascii_of_nat 10) then 1 else 0) + count_newlines s'
  end.

(** The operations of rules 2 to 10, with their arguments.  Rule 1 declares
    a variable and a class and has no operation. *)
Inductive operation : Type :=
| Op_Rule2_example (x : bool)
| Op_Rule3_unsafe
| Op_Rule3_safe
| Op_Rule4_print (str : nat)
| Op_Rule5_process_data
| Op_Rule5_bad_lock
| Op_Rule5_good_lock
| Op_Rule6_old_style
| Op_Rule6_new_style
| Op_Rule7_process (data : nat)
| Op_Rule8_example
| Op_Rule9_example
| Op_Rule10_print.

Definition invoke (op : operation) : M Empty_set unit :=
  match op with
  | Op_Rule2_example x => Rule2_Structure.example x
  | Op_Rule3_unsafe => Rule3_Memory.unsafe
  | Op_Rule3_safe => Rule3_Memory.safe
  | Op_Rule4_print str => Rule4_Const.print str
  | Op_Rule5_process_data => Rule5_RAII.process_data
  | Op_Rule5_bad_lock => Rule5_RAII.bad_lock
  | Op_Rule5_good_lock => Rule5_RAII.good_lock
  | Op_Rule6_old_style => Rule6_ErrorHandling.old_style
  | Op_Rule6_new_style => Rule6_ErrorHandling.new_style
  | Op_Rule7_process data => Rule7_Performance.process data
  | Op_Rule8_example => Rule8_Casting.example
  | Op_Rule9_example => Rule9_Nullptr.example
  | Op_Rule10_print => Rule10_Namespaces.print
  end.

(** An operation can be invoked in [w]: the mutex is free and a reference
    argument of [print] designates a live string. *)
Definition ready (w : World) (op : operation) : bool :=
  negb (m_locked w) &&
  match op with
  | Op_Rule4_print str =>
      match heap w !! str with
      | Some (OString _) => true
      | _ => false
      end
  | _ => true
  end.

(** The standard output the specification attributes to each operation:
    "Hello World" for rule 10's [print], silence for all others. *)
Definition claimed_output (op : operation) : string :=
  match op with
  | Op_Rule10_print => "Hello World"
  | _ => ""
  end.

(** The standard output each operation has. *)
Definition produced_output (w : World) (op : operation) : string :=
  match op with
  | Op_Rule10_print => "Hello World"
  | Op_Rule9_example => called_charp
  | Op_Rule4_print str =>
      match heap w !! str with
      | Some (OString s) => s
      | _ => ""
      end
  | _ => ""
  end.

(** Invoking a list of operations one after the other, as a caller of the
    examples would. *)
Fixpoint invoke_all (ops : list operation) : M Empty_set unit :=
  match ops with
  | [] => ret tt
  | op :: ops' =>
      invoke op ;;
      invoke_all ops'
  end.

(** The standard output of a list of operations, one after the other. *)
Fixpoint all_output (w : World) (ops : list operation) : string :=
  match ops with
  | [] => ""
  | op :: ops' => produced_output w op ++ all_output w ops'
  end.

(** * Properties *)

(** ** The store *)

Lemma fresh_loc_unused (h : gmap nat object) : h !! fresh (dom h) = None.
Proof. apply not_elem_of_dom, is_fresh. Qed.

Lemma alloc_then_free (h : gmap nat object) (o : object) :
  delete (fresh (dom h)) (<[fresh (dom h) := o]> h) = h.
Proof. apply delete_insert_id, fresh_loc_unused. Qed.

Lemma fresh_loc_allocated (h : gmap nat object) (o : object) :
  <[fresh (dom h) := o]> h !! fresh (dom h) = Some o.
Proof. apply lookup_insert_eq. Qed.

(** ** Texts *)

Lemma append_assoc (s1 s2 s3 : string) :
  (s1 ++ s2) ++ s3 = s1 ++ (s2 ++ s3).
Proof.
  induction s1 as [|c s1 IH]; [reflexivity|].
  change (String c ((s1 ++ s2) ++ s3) = String c (s1 ++ (s2 ++ s3))).
  now rewrite IH.
Qed.

Lemma append_empty_r (s : string) : s ++ "" = s.
Proof.
  induction s as [|c s IH]; [reflexivity|].
  change (String c (s ++ "") = String c s).
  now rewrite IH.
Qed.

(** Unfolds a computation down to the world it is applied to. *)
Ltac run :=
  cbv [Rule2_Structure.example
       Rule3_Memory.unsafe Rule3_Memory.safe
       Rule3_Memory.unsafe_with Rule3_Memory.safe_with
       Rule4_Const.print
       Rule5_RAII.process_data Rule5_RAII.bad_lock Rule5_RAII.good_lock
       Rule5_RAII.bad_lock_with Rule5_RAII.good_lock_with
       Rule6_ErrorHandling.old_style Rule6_ErrorHandling.new_style
       Rule6_ErrorHandling.new_style_with Rule6_ErrorHandling.handler
       Rule7_Performance.process Rule8_Casting.example
       Rule9_Nullptr.example Rule10_Namespaces.print main
       error error_returning func do_other calculate
       func_overload func_overload_int func_overload_charp
       call_void call_fn call_main try_catch scoped bind ret return_ throw
       undefined log cout cerr endl alloc dealloc delete_ mutex_lock
       mutex_unlock read_string static_cast_Base
       with_out with_err with_heap with_m_locked with_trace
       out err heap m_locked trace];
  cbn [fst snd].

(** ** The helper functions *)

Lemma error_is_false {R} (w : World) :
  error (R:=R) w = (Val false, with_trace (trace w ++ [F_error]) w).
Proof. reflexivity. Qed.

Lemma calculate_is_10 {R} (w : World) :
  calculate (R:=R) w = (Val 10%Z, with_trace (trace w ++ [F_calculate]) w).
Proof. reflexivity. Qed.

(** ** What each function does to the world *)

Lemma Rule2_example_eq {R} (x : bool) (w : World) :
  Rule2_Structure.example (R:=R) x w
  = (Val tt,
     with_trace (trace w ++ [F_Rule2_example; if x then F_func else F_do_other]) w).
Proof. destruct w as [o e h l t], x; run; rewrite <- !app_assoc; reflexivity. Qed.

Lemma unsafe_with_eq {R} (b : bool) (w : World) :
  Rule3_Memory.unsafe_with (error_returning b) (R:=R) w
  = (Val tt,
     with_trace (trace w ++ [F_Rule3_unsafe; F_error])
       (if b then with_heap (<[fresh (dom (heap w)) := OUser]> (heap w)) w
        else w)).
Proof.
  destruct w as [o e h l t], b; run; rewrite <- ?app_assoc.
  - reflexivity.
  - rewrite fresh_loc_allocated, alloc_then_free. reflexivity.
Qed.

Lemma safe_with_eq {R} (b : bool) (w : World) :
  Rule3_Memory.safe_with (error_returning b) (R:=R) w
  = (Val tt, with_trace (trace w ++ [F_Rule3_safe; F_error]) w).
Proof.
  destruct w as [o e h l t], b; run; rewrite <- ?app_assoc;
    rewrite fresh_loc_allocated, alloc_then_free; reflexivity.
Qed.

Lemma unsafe_eq {R} (w : World) :
  Rule3_Memory.unsafe (R:=R) w
  = (Val tt, with_trace (trace w ++ [F_Rule3_unsafe; F_error]) w).
Proof. exact (unsafe_with_eq false w). Qed.

Lemma safe_eq {R} (w : World) :
  Rule3_Memory.safe (R:=R) w
  = (Val tt, with_trace (trace w ++ [F_Rule3_safe; F_error]) w).
Proof. exact (safe_with_eq false w). Qed.

(** The leak the source comment warns of: with a predicate answering [true]
    the manual variant returns with the [User] still in the store. *)
Lemma unsafe_leaks_when_error {R} (w : World) :
  heap (snd (Rule3_Memory.unsafe_with (error_returning true) (R:=R) w))
  = <[fresh (dom (heap w)) := OUser]> (heap w)
  /\ heap (snd (Rule3_Memory.unsafe_with (error_returning true) (R:=R) w))
     <> heap w.
Proof.
  rewrite unsafe_with_eq. cbn [snd]. destruct w as [o e h l t]. cbn.
  split; [reflexivity|]. intros E.
  pose proof (fresh_loc_allocated h OUser) as Hin.
  rewrite E, fresh_loc_unused in Hin. discriminate.
Qed.

(** The scoped variant releases the [User] also when the predicate throws. *)
Lemma safe_releases_on_exception {R} (x : exn) (w : World) :
  Rule3_Memory.safe_with (throw x) (R:=R) w
  = (Exc x, with_trace (trace w ++ [F_Rule3_safe]) w).
Proof.
  destruct w as [o e h l t]; run.
  now rewrite fresh_loc_allocated, alloc_then_free.
Qed.

(** The manual pairing keeps [m] locked when the work throws. *)
Lemma bad_lock_stays_locked_on_exception {R} (x : exn) (w : World) :
  m_locked w = false ->
  Rule5_RAII.bad_lock_with (throw x) (R:=R) w
  = (Exc x, with_m_locked true (with_trace (trace w ++ [F_Rule5_bad_lock]) w)).
Proof. destruct w as [o e h l t]; cbn [m_locked]; intros ->; reflexivity. Qed.

Lemma print_eq {R} (str : nat) (s : string) (w : World) :
  heap w !! str = Some (OString s) ->
  Rule4_Const.print (R:=R) str w
  = (Val tt, with_trace (trace w ++ [F_Rule4_print]) (with_out (out w ++ s) w)).
Proof. destruct w as [o e h l t]; cbn [heap]; intros Hs; run; now rewrite Hs. Qed.

Lemma process_data_eq {R} (w : World) :
  Rule5_RAII.process_data (R:=R) w
  = (Val tt, with_trace (trace w ++ [F_Rule5_process_data]) w).
Proof. reflexivity. Qed.

Lemma bad_lock_eq {R} (w : World) :
  m_locked w = false ->
  Rule5_RAII.bad_lock (R:=R) w
  = (Val tt,
     with_trace (trace w ++ [F_Rule5_bad_lock; F_Rule5_process_data]) w).
Proof.
  destruct w as [o e h l t]; cbn [m_locked]; intros ->; run.
  now rewrite <- app_assoc.
Qed.

Lemma good_lock_eq {R} (w : World) :
  m_locked w = false ->
  Rule5_RAII.good_lock (R:=R) w
  = (Val tt,
     with_trace (trace w ++ [F_Rule5_good_lock; F_Rule5_process_data]) w).
Proof.
  destruct w as [o e h l t]; cbn [m_locked]; intros ->; run.
  now rewrite <- app_assoc.
Qed.

Lemma old_style_eq {R} (w : World) :
  Rule6_ErrorHandling.old_style (R:=R) w
  = (Val tt, with_trace (trace w ++ [F_Rule6_old_style]) w).
Proof. reflexivity. Qed.

Lemma new_style_eq {R} (w : World) :
  Rule6_ErrorHandling.new_style (R:=R) w
  = (Val tt, with_trace (trace w ++ [F_Rule6_new_style; F_calculate]) w).
Proof. destruct w as [o e h l t]; run; now rewrite <- app_assoc. Qed.

Lemma process_eq {R} (data : nat) (w : World) :
  Rule7_Performance.process (R:=R) data w
  = (Val tt, with_trace (trace w ++ [F_Rule7_process]) w).
Proof. reflexivity. Qed.

Lemma Rule8_example_eq {R} (w : World) :
  Rule8_Casting.example (R:=R) w
  = (Val tt, with_trace (trace w ++ [F_Rule8_example]) w).
Proof.
  destruct w as [o e h l t]; run.
  now rewrite fresh_loc_allocated, alloc_then_free.
Qed.

Lemma Rule9_example_eq {R} (w : World) :
  Rule9_Nullptr.example (R:=R) w
  = (Val tt,
     with_trace (trace w ++ [F_Rule9_example; F_func_overload_charp])
       (with_out (out w ++ called_charp) w)).
Proof.
  change (Rule9_Nullptr.example (R:=R))
    with (call_void (R:=R) F_Rule9_example (func_overload_charp None)).
  destruct w as [o e h l t]; run; now rewrite <- app_assoc.
Qed.

Lemma Rule10_print_eq {R} (w : World) :
  Rule10_Namespaces.print (R:=R) w
  = (Val tt,
     with_trace (trace w ++ [F_Rule10_print]) (with_out (out w ++ "Hello World") w)).
Proof. reflexivity. Qed.

(** ** Claims *)

(** C1.  Running the program writes exactly one line to standard output, the
    banner followed by a newline, writes nothing to standard error and
    returns 0.  From any world [main] appends that line to the output and
    leaves the error stream as it was. *)
Theorem main_writes_banner :
  main initial_world
  = (Val 0%Z,
     mkWorld ("C++ Code Examples successfully compiled." ++ newline)
             "" ∅ false [F_main])
  /\ count_newlines (out (snd (main initial_world))) = 1
  /\ forall w : World,
       fst (main w) = Val 0%Z
       /\ out (snd (main w))
          = out w ++ "C++ Code Examples successfully compiled." ++ newline
       /\ err (snd (main w)) = err w.
Proof.
  split; [reflexivity|]. split; [reflexivity|].
  intros [o e h l t]. run. repeat split.
  apply append_assoc.
Qed.

(** C2, as the specification states it, fails: rule 9's [example] writes
    the line of the pointer overload, [called_charp], and rule 4's [print]
    writes its argument, where the specification has both silent. *)
Lemma silent_operations_counterexample :
  ready initial_world Op_Rule9_example = true
  /\ invoke Op_Rule9_example initial_world
     = (Val tt,
        mkWorld called_charp "" ∅ false
                [F_Rule9_example; F_func_overload_charp])
  /\ out (snd (invoke Op_Rule9_example initial_world))
     <> out initial_world ++ claimed_output Op_Rule9_example
  /\ ready (with_heap {[ 3 := OString "abc" ]} initial_world) (Op_Rule4_print 3)
     = true
  /\ out (snd (invoke (Op_Rule4_print 3)
                  (with_heap {[ 3 := OString "abc" ]} initial_world)))
     = "abc"
  /\ out (snd (invoke (Op_Rule4_print 3)
                  (with_heap {[ 3 := OString "abc" ]} initial_world)))
     <> out (with_heap {[ 3 := OString "abc" ]} initial_world)
        ++ claimed_output (Op_Rule4_print 3).
Proof. repeat split; try reflexivity; vm_compute; discriminate. Qed.

(** C2, amended.  Every operation of rules 2 to 10, invoked alone in a world
    where it can be invoked, returns normally without throwing and writes
    nothing to standard error; on standard output rule 10's [print] writes
    "Hello World", rule 9's [example] writes the line of the pointer
    overload, [called_charp], rule 4's [print] writes its argument, and
    every other operation writes nothing. *)
Theorem operations_in_isolation (op : operation) (w : World) :
  ready w op = true ->
  exists w' : World,
    invoke op w = (Val tt, w')
    /\ out w' = out w ++ produced_output w op
    /\ err w' = err w.
Proof.
  unfold ready. intros H.
  apply andb_true_iff in H as [Hm Hs]. apply negb_true_iff in Hm.
  destruct op; cbn [invoke produced_output].
  - rewrite Rule2_example_eq. eexists; split; [reflexivity|].
    destruct w; cbn; now rewrite append_empty_r.
  - rewrite unsafe_eq. eexists; split; [reflexivity|].
    destruct w; cbn; now rewrite append_empty_r.
  - rewrite safe_eq. eexists; split; [reflexivity|].
    destruct w; cbn; now rewrite append_empty_r.
  - destruct (heap w !! str) as [[| |s|]|] eqn:E; try discriminate.
    rewrite (print_eq str s w E). eexists; split; [reflexivity|].
    destruct w; cbn; split; reflexivity.
  - rewrite process_data_eq. eexists; split; [reflexivity|].
    destruct w; cbn; now rewrite append_empty_r.
  - rewrite (bad_lock_eq w Hm). eexists; split; [reflexivity|].
    destruct w; cbn; now rewrite append_empty_r.
  - rewrite (good_lock_eq w Hm). eexists; split; [reflexivity|].
    destruct w; cbn; now rewrite append_empty_r.
  - rewrite old_style_eq. eexists; split; [reflexivity|].
    destruct w; cbn; now rewrite append_empty_r.
  - rewrite new_style_eq. eexists; split; [reflexivity|].
    destruct w; cbn; now rewrite append_empty_r.
  - rewrite process_eq. eexists; split; [reflexivity|].
    destruct w; cbn; now rewrite append_empty_r.
  - rewrite Rule8_example_eq. eexists; split; [reflexivity|].
    destruct w; cbn; now rewrite append_empty_r.
  - rewrite Rule9_example_eq. eexists; split; [reflexivity|].
    destruct w; cbn; split; reflexivity.
  - rewrite Rule10_print_eq. eexists; split; [reflexivity|].
    destruct w; cbn; split; reflexivity.
Qed.

Lemma operations_in_isolation_witness :
  ready (with_heap {[ 3 := OString "abc" ]} initial_world) (Op_Rule4_print 3)
  = true
  /\ exists w' : World,
       invoke (Op_Rule4_print 3)
              (with_heap {[ 3 := OString "abc" ]} initial_world)
       = (Val tt, w')
       /\ out w'
          = out (with_heap {[ 3 := OString "abc" ]} initial_world)
            ++ produced_output
                 (with_heap {[ 3 := OString "abc" ]} initial_world)
                 (Op_Rule4_print 3)
       /\ err w' = err (with_heap {[ 3 := OString "abc" ]} initial_world).
Proof.
  split; [vm_compute; reflexivity|].
  apply (operations_in_isolation (Op_Rule4_print 3)).
  vm_compute; reflexivity.
Defined.

(** C3.  In every execution of [new_style] the computation [calculate]
    completes with 10 and propagates nothing, the handler is never entered
    (whatever handler is installed, the guarded block behaves as if there
    were none), and standard error is left as it was.  With an arbitrary
    computation in the place of [calculate], standard error grows, by
    "Error: " and the message, exactly when that computation propagates a
    [std::exception] carrying the message. *)
Theorem new_style_catches_nothing {R : Type} (w : World) :
  let w0 := with_trace (trace w ++ [F_Rule6_new_style]) w in
  calculate (R:=unit) w0
  = (Val 10%Z, with_trace (trace w0 ++ [F_calculate]) w0)
  /\ (forall h : string -> M unit unit,
        try_catch (res <- calculate ;; ret tt) h w0
        = (res <- calculate ;; ret tt) w0)
  /\ Rule6_ErrorHandling.new_style (R:=R) w
     = (Val tt, with_trace (trace w ++ [F_Rule6_new_style; F_calculate]) w)
  /\ err (snd (Rule6_ErrorHandling.new_style (R:=R) w)) = err w
  /\ forall c : M unit Z,
       match c w0 with
       | (Exc (StdException msg), w1) =>
           err (snd (Rule6_ErrorHandling.new_style_with c (R:=R) w))
           = err w1 ++ "Error: " ++ msg
       | (_, w1) =>
           err (snd (Rule6_ErrorHandling.new_style_with c (R:=R) w)) = err w1
       end.
Proof.
  intros w0. split; [reflexivity|]. split; [reflexivity|].
  rewrite new_style_eq. split; [reflexivity|].
  split; [destruct w; reflexivity|].
  intros c. subst w0. destruct w as [o e h l t]. run.
  destruct (c _) as [[a|r|[msg|]|] [o1 e1 h1 l1 t1]]; run;
    try reflexivity.
  apply append_assoc.
Qed.

(** C4.  Whatever the predicate answers, [safe] returns normally with the
    store exactly as it found it: the [User] it acquired has been released,
    also on the early-return path taken when the answer is [true].  Started
    in the initial world, it leaves no object allocated. *)
Theorem safe_releases_user {R : Type} (b : bool) (w : World) :
  (exists w' : World,
     Rule3_Memory.safe_with (error_returning b) (R:=R) w = (Val tt, w')
     /\ heap w' = heap w)
  /\ Rule3_Memory.safe (R:=R)
     = Rule3_Memory.safe_with (error_returning false)
  /\ heap (snd (Rule3_Memory.safe_with (error_returning b) (R:=R)
                  initial_world)) = ∅.
Proof.
  split; [|split; [reflexivity|]].
  - rewrite safe_with_eq. eexists; split; [reflexivity|].
    destruct w; reflexivity.
  - rewrite safe_with_eq. reflexivity.
Qed.

(** C5.  The call [func_overload(nullptr)] in rule 9's [example] has the
    pointer overload as its only viable candidate, the integer overload
    being excluded, and enters it: the trace gains the pointer overload
    and the output gains its line. *)
Theorem nullptr_selects_pointer_overload {R : Type} (w : World) :
  viable A_nullptr = [Ov_charp]
  /\ converts A_nullptr Ov_int = false
  /\ func_overload (R:=unit) A_nullptr = func_overload_charp None
  /\ Rule9_Nullptr.example (R:=R) w
     = (Val tt,
        with_trace (trace w ++ [F_Rule9_example; F_func_overload_charp])
          (with_out (out w ++ called_charp) w))
  /\ called_charp <> called_int.
Proof.
  repeat split; try reflexivity.
  - apply Rule9_example_eq.
  - vm_compute; discriminate.
Qed.

(** C6.  Entered with [m] free, [good_lock] returns normally and leaves [m]
    free.  With any work in the place of [process_data] that does not itself
    touch [m], every exit of the function, normal or by an exception, leaves
    [m] free; there is no exit only when the work is undefined. *)
Theorem good_lock_releases_m {R : Type} (work : M unit unit) (w : World) :
  (forall w0 : World, m_locked (snd (work w0)) = m_locked w0) ->
  m_locked w = false ->
  Rule5_RAII.good_lock (R:=R) w
  = (Val tt,
     with_trace (trace w ++ [F_Rule5_good_lock; F_Rule5_process_data]) w)
  /\ m_locked (snd (Rule5_RAII.good_lock (R:=R) w)) = false
  /\ match Rule5_RAII.good_lock_with work (R:=R) w with
     | (Undef, _) =>
         fst (work (with_m_locked true
                      (with_trace (trace w ++ [F_Rule5_good_lock]) w)))
         = Undef
     | (_, w') => m_locked w' = false
     end.
Proof.
  intros Hwork Hm. rewrite (good_lock_eq w Hm).
  split; [reflexivity|]. split; [destruct w; exact Hm|].
  destruct w as [o e h l t]. cbn [m_locked] in Hm. subst l. run.
  match goal with |- context [work ?x] => specialize (Hwork x) end.
  destruct (work _) as [[a|r|x|] [o1 e1 h1 l1 t1]];
    cbn [snd m_locked] in Hwork; subst l1; run; reflexivity.
Qed.

Lemma good_lock_releases_m_witness :
  (forall w0 : World,
     m_locked (snd (throw (R:=unit) (A:=unit) ForeignException w0))
     = m_locked w0)
  /\ m_locked initial_world = false
  /\ Rule5_RAII.good_lock (R:=unit) initial_world
     = (Val tt,
        with_trace (trace initial_world
                    ++ [F_Rule5_good_lock; F_Rule5_process_data])
          initial_world)
  /\ m_locked (snd (Rule5_RAII.good_lock (R:=unit) initial_world)) = false
  /\ match Rule5_RAII.good_lock_with (throw ForeignException) (R:=unit)
             initial_world with
     | (Undef, _) =>
         fst (throw (R:=unit) (A:=unit) ForeignException
                (with_m_locked true
                   (with_trace (trace initial_world ++ [F_Rule5_good_lock])
                      initial_world)))
         = Undef
     | (_, w') => m_locked w' = false
     end.
Proof.
  split; [intros w0; reflexivity|]. split; [reflexivity|].
  apply (good_lock_releases_m (R:=unit) (throw ForeignException) initial_world).
  - intros w0; reflexivity.
  - reflexivity.
Defined.

(** C7.  For every string [s] and every reference [str] to it, rule 4's
    [print] returns normally and the referenced object still holds [s]; the
    whole store is as it was. *)
Theorem print_leaves_argument_unchanged {R : Type}
    (str : nat) (s : string) (w : World) :
  heap w !! str = Some (OString s) ->
  exists w' : World,
    Rule4_Const.print (R:=R) str w = (Val tt, w')
    /\ heap w' !! str = Some (OString s)
    /\ heap w' = heap w.
Proof.
  intros Hs. rewrite (print_eq str s w Hs).
  eexists; split; [reflexivity|].
  destruct w; cbn in *; split; [exact Hs | reflexivity].
Qed.

Lemma print_leaves_argument_unchanged_witness :
  heap (with_heap {[ 3 := OString "abc" ]} initial_world) !! 3
  = Some (OString "abc")
  /\ exists w' : World,
       Rule4_Const.print (R:=unit) 3
         (with_heap {[ 3 := OString "abc" ]} initial_world)
       = (Val tt, w')
       /\ heap w' !! 3 = Some (OString "abc")
       /\ heap w' = heap (with_heap {[ 3 := OString "abc" ]} initial_world).
Proof.
  split; [vm_compute; reflexivity|].
  apply (print_leaves_argument_unchanged (R:=unit) 3 "abc").
  vm_compute; reflexivity.
Defined.

(** C8.  For every boolean [x], rule 2's [example] returns normally having
    entered, after itself, exactly one function: [func] when [x] is true,
    [do_other] when [x] is false.  In no execution are both entered. *)
Theorem example_invokes_exactly_one {R : Type} (x : bool) (w : World) :
  exists called : list fn,
    Rule2_Structure.example (R:=R) x w
    = (Val tt, with_trace (trace w ++ F_Rule2_example :: called) w)
    /\ called = [if x then F_func else F_do_other]
    /\ (F_func ∈ called <-> x = true)
    /\ (F_do_other ∈ called <-> x = false)
    /\ ~ (F_func ∈ called /\ F_do_other ∈ called).
Proof.
  exists [if x then F_func else F_do_other].
  split; [apply Rule2_example_eq|]. split; [reflexivity|].
  destruct x; repeat split; try reflexivity; try discriminate;
    rewrite ?list_elem_of_singleton; try discriminate; try tauto;
    intros [? ?]; discriminate.
Qed.

(** C9.  Two runs of [main] that start with the same bytes already on
    standard output end with the same exit value and the same bytes on
    standard output, however the two worlds differ otherwise; in particular
    two runs from the initial world write byte-identical output. *)
Theorem main_deterministic (w1 w2 : World) :
  out w1 = out w2 ->
  fst (main w1) = fst (main w2)
  /\ out (snd (main w1)) = out (snd (main w2)).
Proof.
  destruct w1 as [o1 e1 h1 l1 t1], w2 as [o2 e2 h2 l2 t2].
  cbn [out]. intros ->. split; reflexivity.
Qed.

Lemma main_deterministic_witness :
  out initial_world
  = out (mkWorld "" "stale" {[ 7 := OUser ]} true [F_func])
  /\ fst (main initial_world)
     = fst (main (mkWorld "" "stale" {[ 7 := OUser ]} true [F_func]))
  /\ out (snd (main initial_world))
     = out (snd (main (mkWorld "" "stale" {[ 7 := OUser ]} true [F_func]))).
Proof.
  split; [reflexivity|].
  apply (main_deterministic initial_world
           (mkWorld "" "stale" {[ 7 := OUser ]} true [F_func])).
  reflexivity.
Defined.

(** C10.  [error] answers [false] in every world, so [unsafe] never takes
    its early return: it reaches [delete u], returns normally and leaves the
    store exactly as it found it, the [User] released. *)
Theorem unsafe_leak_unreachable {R : Type} (w : World) :
  error (R:=unit) w = (Val false, with_trace (trace w ++ [F_error]) w)
  /\ Rule3_Memory.unsafe (R:=R) w
     = (Val tt, with_trace (trace w ++ [F_Rule3_unsafe; F_error]) w)
  /\ heap (snd (Rule3_Memory.unsafe (R:=R) w)) = heap w
  /\ heap (snd (Rule3_Memory.unsafe (R:=R) w)) !! fresh (dom (heap w)) = None.
Proof.
  split; [reflexivity|]. rewrite unsafe_eq. split; [reflexivity|].
  destruct w as [o e h l t]; cbn. split; [reflexivity | apply fresh_loc_unused].
Qed.

(** ** Beyond the claims *)

(** *** Rule 3: what the two variants do with the [User] *)

(** X1.  The manual variant releases its [User] exactly when the predicate
    answers [false]: whenever a predicate that leaves the store alone
    answers [true] or throws, [unsafe] ends with the [User] still in the
    store, at the address [new] gave it.  This is the leak the source
    comment warns of. *)
Theorem unsafe_leaks_unless_false {R : Type}
    (error_ : M unit bool) (w : World) :
  (forall w0 : World, heap (snd (error_ w0)) = heap w0) ->
  let l := fresh (dom (heap w)) in
  let w1 := with_heap (<[l := OUser]> (heap w))
              (with_trace (trace w ++ [F_Rule3_unsafe]) w) in
  heap (snd (Rule3_Memory.unsafe_with error_ (R:=R) w))
  = match fst (error_ w1) with
    | Val false => heap w
    | _ => <[l := OUser]> (heap w)
    end
  /\ <[l := OUser]> (heap w) <> heap w.
Proof.
  intros Hkeep l w1. split.
  - specialize (Hkeep w1). subst l w1. destruct w as [o e h m t].
    run. cbn [heap snd] in Hkeep.
    destruct (error_ _) as [[[|]|r|x|] [o1 e1 h1 m1 t1]];
      cbn [heap snd fst] in *; subst h1; run; try reflexivity.
    rewrite fresh_loc_allocated. cbn. apply alloc_then_free.
  - subst l. intros E.
    pose proof (fresh_loc_allocated (heap w) OUser) as Hin.
    rewrite E, fresh_loc_unused in Hin. discriminate.
Qed.

Lemma unsafe_leaks_unless_false_witness :
  (forall w0 : World,
     heap (snd (error_returning (R:=unit) true w0)) = heap w0)
  /\ heap (snd (Rule3_Memory.unsafe_with (error_returning true) (R:=unit)
                  initial_world))
     = <[fresh (dom (heap initial_world)) := OUser]> (heap initial_world).
Proof.
  split; [intros [o e h m t]; reflexivity|].
  apply (unsafe_leaks_unless_false (R:=unit) (error_returning true)
           initial_world).
  intros [o e h m t]; reflexivity.
Defined.

(** X2.  The scoped variant releases its [User] on every way out: with any
    predicate that leaves the store alone and is not undefined, [safe] ends
    with the store as it found it, returning normally when the predicate
    answers and passing the exception on when it throws. *)
Theorem safe_releases_on_every_exit {R : Type}
    (error_ : M unit bool) (w : World) :
  (forall w0 : World, heap (snd (error_ w0)) = heap w0) ->
  (forall w0 : World, fst (error_ w0) <> Undef) ->
  let w1 := with_heap (<[fresh (dom (heap w)) := OUser]> (heap w))
              (with_trace (trace w ++ [F_Rule3_safe]) w) in
  heap (snd (Rule3_Memory.safe_with error_ (R:=R) w)) = heap w
  /\ fst (Rule3_Memory.safe_with error_ (R:=R) w)
     = match fst (error_ w1) with
       | Exc x => Exc x
       | _ => Val tt
       end.
Proof.
  intros Hkeep Hdef w1.
  specialize (Hkeep w1). specialize (Hdef w1). subst w1.
  destruct w as [o e h m t]. run. cbn [heap snd] in Hkeep.
  destruct (error_ _) as [[[|]|r|x|] [o1 e1 h1 m1 t1]];
    cbn [heap snd fst] in *; subst h1; run;
    try (rewrite fresh_loc_allocated; cbn; split;
         [apply alloc_then_free | reflexivity]).
  now contradiction Hdef.
Qed.

Lemma safe_releases_on_every_exit_witness :
  (forall w0 : World,
     heap (snd (throw (R:=unit) (A:=bool) ForeignException w0)) = heap w0)
  /\ (forall w0 : World,
        fst (throw (R:=unit) (A:=bool) ForeignException w0) <> Undef)
  /\ heap (snd (Rule3_Memory.safe_with (throw ForeignException) (R:=unit)
                  initial_world))
     = heap initial_world
  /\ fst (Rule3_Memory.safe_with (throw ForeignException) (R:=unit)
            initial_world)
     = Exc ForeignException.
Proof.
  split; [intros w0; reflexivity|]. split; [intros w0; discriminate|].
  apply (safe_releases_on_every_exit (R:=unit) (throw ForeignException)
           initial_world).
  - intros w0; reflexivity.
  - intros w0; discriminate.
Defined.

(** *** Rule 5: what the two variants do with the mutex *)

(** X3.  The manual pairing releases [m] only when the work runs to its
    end: entered with [m] free, with any work that does not itself touch
    [m], [bad_lock] leaves [m] free when the work completes and leaves it
    locked when the work throws. *)
Theorem bad_lock_releases_only_on_completion {R : Type}
    (work : M unit unit) (w : World) :
  (forall w0 : World, m_locked (snd (work w0)) = m_locked w0) ->
  m_locked w = false ->
  let w1 := with_m_locked true
              (with_trace (trace w ++ [F_Rule5_bad_lock]) w) in
  m_locked (snd (Rule5_RAII.bad_lock_with work (R:=R) w))
  = match fst (work w1) with
    | Val _ => false
    | _ => true
    end
  /\ match fst (work w1) with
     | Exc x => fst (Rule5_RAII.bad_lock_with work (R:=R) w) = Exc x
     | _ => True
     end.
Proof.
  intros Hwork Hm w1. specialize (Hwork w1). subst w1.
  destruct w as [o e h l t]. cbn [m_locked] in Hm. subst l. run.
  destruct (work _) as [[a|r|x|] [o1 e1 h1 l1 t1]];
    cbn [snd fst m_locked] in *; subst l1; run; split; reflexivity.
Qed.

Lemma bad_lock_releases_only_on_completion_witness :
  (forall w0 : World,
     m_locked (snd (throw (R:=unit) (A:=unit) ForeignException w0))
     = m_locked w0)
  /\ m_locked initial_world = false
  /\ m_locked (snd (Rule5_RAII.bad_lock_with (throw ForeignException)
                      (R:=unit) initial_world))
     = true.
Proof.
  split; [intros w0; reflexivity|]. split; [reflexivity|].
  apply (bad_lock_releases_only_on_completion (R:=unit)
           (throw ForeignException) initial_world).
  - intros w0; reflexivity.
  - reflexivity.
Defined.

(** X4.  The deadlock the source comment warns of.  Entered with [m] free:
    after a [bad_lock] whose work threw, a further [bad_lock] or [good_lock]
    locks a mutex its own thread holds and never returns; after a
    [good_lock] whose work threw, both return normally. *)
Theorem lock_after_exception {R : Type} (x : exn) (w : World) :
  m_locked w = false ->
  let w_bad := snd (Rule5_RAII.bad_lock_with (throw x) (R:=R) w) in
  let w_good := snd (Rule5_RAII.good_lock_with (throw x) (R:=R) w) in
  fst (Rule5_RAII.bad_lock (R:=R) w_bad) = Undef
  /\ fst (Rule5_RAII.good_lock (R:=R) w_bad) = Undef
  /\ fst (Rule5_RAII.bad_lock (R:=R) w_good) = Val tt
  /\ fst (Rule5_RAII.good_lock (R:=R) w_good) = Val tt
  /\ m_locked (snd (Rule5_RAII.good_lock (R:=R) w_good)) = false.
Proof.
  destruct w as [o e h l t]. cbn [m_locked]. intros ->.
  repeat split; reflexivity.
Qed.

Lemma lock_after_exception_witness :
  m_locked initial_world = false
  /\ fst (Rule5_RAII.good_lock (R:=unit)
            (snd (Rule5_RAII.bad_lock_with (throw ForeignException)
                    (R:=unit) initial_world)))
     = Undef.
Proof.
  split; [reflexivity|].
  apply (lock_after_exception (R:=unit) ForeignException initial_world).
  reflexivity.
Defined.

(** *** Rule 6: which failures the handler takes *)

(** X5.  [new_style] swallows a [std::exception] and lets every other
    exception through: with any computation in the place of [calculate],
    the function returns normally when the computation completes or throws
    a [std::exception], and propagates the exception, writing nothing of
    its own to standard error, when it throws anything else. *)
Theorem new_style_swallows_std_exception_only {R : Type}
    (calculate_ : M unit Z) (w : World) :
  let w0 := with_trace (trace w ++ [F_Rule6_new_style]) w in
  fst (Rule6_ErrorHandling.new_style_with calculate_ (R:=R) w)
  = match fst (calculate_ w0) with
    | Exc ForeignException => Exc ForeignException
    | Undef => Undef
    | _ => Val tt
    end
  /\ match fst (calculate_ w0) with
     | Exc ForeignException =>
         Rule6_ErrorHandling.new_style_with calculate_ (R:=R) w
         = (Exc ForeignException, snd (calculate_ w0))
     | _ => True
     end.
Proof.
  intros w0. subst w0. destruct w as [o e h l t]. run.
  destruct (calculate_ _) as [[a|r|[msg|]|] [o1 e1 h1 l1 t1]];
    run; split; reflexivity.
Qed.

(** *** The overloaded helper *)


(** *** The operations as a family *)

(** Readiness and the output of an operation depend on the store and the
    mutex only. *)
Lemma ready_frame (t : list fn) (s : string) (w : World) (op : operation) :
  ready (with_trace t (with_out s w)) op = ready w op.
Proof. destruct w; reflexivity. Qed.

Lemma produced_output_frame (t : list fn) (s : string) (w : World)
    (op : operation) :
  produced_output (with_trace t (with_out s w)) op = produced_output w op.
Proof. destruct w; reflexivity. Qed.

Lemma all_ready_frame (t : list fn) (s : string) (w : World)
    (ops : list operation) :
  forallb (ready (with_trace t (with_out s w))) ops = forallb (ready w) ops.
Proof.
  induction ops as [|op ops IH]; [reflexivity|].
  cbn [forallb]. now rewrite ready_frame, IH.
Qed.

Lemma all_output_frame (t : list fn) (s : string) (w : World)
    (ops : list operation) :
  all_output (with_trace t (with_out s w)) ops = all_output w ops.
Proof.
  induction ops as [|op ops IH]; [reflexivity|].
  cbn [all_output]. now rewrite produced_output_frame, IH.
Qed.

(** A ready operation returns normally; it extends the trace and the
    standard output and changes nothing else. *)
Lemma invoke_ready (op : operation) (w : World) :
  ready w op = true ->
  exists t : list fn,
    invoke op w
    = (Val tt,
       with_trace (trace w ++ t) (with_out (out w ++ produced_output w op) w)).
Proof.
  unfold ready. intros H.
  apply andb_true_iff in H as [Hm Hs]. apply negb_true_iff in Hm.
  destruct op; cbn [invoke produced_output]; eexists.
  4: { destruct (heap w !! str) as [[| |s|]|] eqn:E; try discriminate.
       rewrite (print_eq str s w E). destruct w; reflexivity. }
  all: first
    [ rewrite Rule2_example_eq | rewrite unsafe_eq | rewrite safe_eq
    | rewrite process_data_eq | rewrite (bad_lock_eq w Hm)
    | rewrite (good_lock_eq w Hm) | rewrite old_style_eq
    | rewrite new_style_eq | rewrite process_eq | rewrite Rule8_example_eq
    | rewrite Rule9_example_eq | rewrite Rule10_print_eq ];
    destruct w; cbn; rewrite ?append_empty_r; reflexivity.
Qed.

Lemma invoke_all_ready (ops : list operation) (w : World) :
  forallb (ready w) ops = true ->
  exists t : list fn,
    invoke_all ops w
    = (Val tt,
       with_trace (trace w ++ t) (with_out (out w ++ all_output w ops) w)).
Proof.
  revert w. induction ops as [|op ops IH]; intros w Hall.
  - exists []. destruct w; cbn.
    now rewrite app_nil_r, append_empty_r.
  - cbn [forallb] in Hall. apply andb_true_iff in Hall as [Hop Hops].
    destruct (invoke_ready op w Hop) as [t1 E1].
    set (w1 := with_trace (trace w ++ t1)
                 (with_out (out w ++ produced_output w op) w)) in *.
    assert (Hops1 : forallb (ready w1) ops = true)
      by (subst w1; now rewrite all_ready_frame).
    destruct (IH w1 Hops1) as [t2 E2].
    exists (t1 ++ t2)%list.
    cbn [invoke_all all_output]. unfold bind. rewrite E1, E2.
    subst w1. rewrite all_output_frame.
    destruct w; cbn. now rewrite app_assoc, append_assoc.
Qed.

(** X7.  No operation of rules 2 to 10 keeps a resource: invoked where it
    can be invoked, each one ends with the store exactly as it found it
    (nothing leaked, nothing freed that was there, no string changed) and
    with [m] free, so that every operation that could be invoked before can
    be invoked after. *)
Theorem operations_keep_no_resource (op : operation) (w : World) :
  ready w op = true ->
  heap (snd (invoke op w)) = heap w
  /\ m_locked (snd (invoke op w)) = false
  /\ forall op' : operation, ready (snd (invoke op w)) op' = ready w op'.
Proof.
  intros Hop. destruct (invoke_ready op w Hop) as [t E]. rewrite E.
  cbn [snd]. split; [destruct w; reflexivity|]. split.
  - unfold ready in Hop. apply andb_true_iff in Hop as [Hm _].
    apply negb_true_iff in Hm. destruct w; exact Hm.
  - intros op'. apply ready_frame.
Qed.

Lemma operations_keep_no_resource_witness :
  ready initial_world Op_Rule3_unsafe = true
  /\ heap (snd (invoke Op_Rule3_unsafe initial_world)) = heap initial_world
  /\ m_locked (snd (invoke Op_Rule3_unsafe initial_world)) = false
  /\ forall op' : operation,
       ready (snd (invoke Op_Rule3_unsafe initial_world)) op'
       = ready initial_world op'.
Proof.
  split; [reflexivity|].
  apply (operations_keep_no_resource Op_Rule3_unsafe initial_world).
  reflexivity.
Defined.

(** X8.  The examples compose: any list of operations, each of which can be
    invoked in the starting world, runs to its end one after the other
    without throwing; standard output gains the operations' outputs in
    order, standard error gains nothing, and the store and [m] end as they
    started. *)
Theorem examples_compose (ops : list operation) (w : World) :
  forallb (ready w) ops = true ->
  exists w' : World,
    invoke_all ops w = (Val tt, w')
    /\ out w' = out w ++ all_output w ops
    /\ err w' = err w
    /\ heap w' = heap w
    /\ m_locked w' = m_locked w.
Proof.
  intros Hall. destruct (invoke_all_ready ops w Hall) as [t E].
  eexists; split; [exact E|].
  destruct w; repeat split; reflexivity.
Qed.

Lemma examples_compose_witness :
  forallb (ready (with_heap {[ 3 := OString "abc" ]} initial_world))
    [Op_Rule10_print; Op_Rule4_print 3; Op_Rule9_example; Op_Rule3_unsafe;
     Op_Rule5_bad_lock; Op_Rule5_good_lock; Op_Rule4_print 3]
  = true
  /\ exists w' : World,
       invoke_all
         [Op_Rule10_print; Op_Rule4_print 3; Op_Rule9_example;
          Op_Rule3_unsafe; Op_Rule5_bad_lock; Op_Rule5_good_lock;
          Op_Rule4_print 3]
         (with_heap {[ 3 := OString "abc" ]} initial_world)
       = (Val tt, w')
       /\ out w'
          = out (with_heap {[ 3 := OString "abc" ]} initial_world)
            ++ all_output (with_heap {[ 3 := OString "abc" ]} initial_world)
                 [Op_Rule10_print; Op_Rule4_print 3; Op_Rule9_example;
                  Op_Rule3_unsafe; Op_Rule5_bad_lock; Op_Rule5_good_lock;
                  Op_Rule4_print 3]
       /\ err w' = err (with_heap {[ 3 := OString "abc" ]} initial_world)
       /\ heap w' = heap (with_heap {[ 3 := OString "abc" ]} initial_world)
       /\ m_locked w'
          = m_locked (with_heap {[ 3 := OString "abc" ]} initial_world).
Proof.
  split; [vm_compute; reflexivity|].
  apply (examples_compose
           [Op_Rule10_print; Op_Rule4_print 3; Op_Rule9_example;
            Op_Rule3_unsafe; Op_Rule5_bad_lock; Op_Rule5_good_lock;
            Op_Rule4_print 3]
           (with_heap {[ 3 := OString "abc" ]} initial_world)).
  vm_compute; reflexivity.
Defined.

(** X9.  Mutual exclusion: both lock functions enter the work only while
    [m] is held.  Two pieces of work that behave alike in every world where
    [m] is locked make [bad_lock] behave alike, and [good_lock] too, in
    every world, whatever they would do with [m] free. *)
Theorem work_runs_only_under_lock {R : Type}
    (work work' : M unit unit) (w : World) :
  (forall w0 : World, m_locked w0 = true -> work w0 = work' w0) ->
  Rule5_RAII.bad_lock_with work (R:=R) w
  = Rule5_RAII.bad_lock_with work' (R:=R) w
  /\ Rule5_RAII.good_lock_with work (R:=R) w
     = Rule5_RAII.good_lock_with work' (R:=R) w.
Proof.
  intros Hsame. destruct w as [o e h [|] t]; run.
  - split; reflexivity.
  - split;
      match goal with
      | |- context [work ?x] => rewrite (Hsame x eq_refl)
      end; reflexivity.
Qed.

Lemma work_runs_only_under_lock_witness :
  (forall w0 : World,
     m_locked w0 = true ->
     ret (R:=unit) tt w0
     = (if m_locked w0 then ret tt w0 else throw ForeignException w0))
  /\ Rule5_RAII.bad_lock_with (ret tt) (R:=unit) initial_world
     = Rule5_RAII.bad_lock_with
         (fun w0 => if m_locked w0 then ret tt w0
                    else throw ForeignException w0)
         (R:=unit) initial_world
  /\ Rule5_RAII.good_lock_with (ret tt) (R:=unit) initial_world
     = Rule5_RAII.good_lock_with
         (fun w0 => if m_locked w0 then ret tt w0
                    else throw ForeignException w0)
         (R:=unit) initial_world.
Proof.
  split; [intros w0 H; rewrite H; reflexivity|].
  apply (work_runs_only_under_lock (R:=unit) (ret tt)
           (fun w0 => if m_locked w0 then ret tt w0
                      else throw ForeignException w0)
           initial_world).
  intros w0 H; rewrite H; reflexivity.
Defined.
